(** * The 3-qubit bit-flip code notebook (3-qubit-code/3-qubit-code.py)

    A shallow embedding of the notebook's three helpers, [qcirc],
    [qcirc_sim] and [counts_bit_reversed], over a model of the part of the
    Qiskit circuit interface they call, and the properties of the syndromes
    the notebook prints. *)

From Stdlib Require Import ZArith String Ascii.
From stdpp Require Import base list strings.

Local Open Scope string_scope.
Local Open Scope list_scope.

(** ** Exceptions, sequencing, lists and dictionaries *)

Module Py.

(** The exceptions the modelled calls can raise. *)
Inductive exn : Type :=
| CircuitError (msg : string)
| IndexError
| KeyError (key : string)
| UnboundLocalError (name : string)
| AerError (msg : string)
| ReferenceError
| ValueError (msg : string).

(** A call either raises or returns. *)
Definition result (A : Type) : Type := (exn + A)%type.

Definition raise {A} (e : exn) : result A := inl e.

(** Sequencing, for the three kinds of computation of the model: calls
    that can raise, calls that also change objects, and lookups. *)
Class Monad (M : Type → Type) : Type := {
  ret : ∀ {A}, A → M A;
  bind : ∀ {A B}, M A → (A → M B) → M B
}.

Declare Scope py_scope.
Delimit Scope py_scope with py.
Notation "x ← m ; k" := (bind m (λ x, k))
  (at level 20, m at level 100, k at level 200, only parsing) : py_scope.
Notation "' x ← m ; k" := (bind m (λ x, k))
  (at level 20, x pattern, m at level 100, k at level 200, only parsing) : py_scope.
Notation "m ;; k" := (bind m (λ _, k))
  (at level 100, k at level 200, only parsing, right associativity) : py_scope.
#[local] Open Scope py_scope.

#[export] Instance result_monad : Monad result := {|
  ret _ a := inr a;
  bind _ _ m k := match m with
                  | inl e => inl e
                  | inr a => k a
                  end
|}.

#[export] Instance option_monad : Monad option := {|
  ret _ a := Some a;
  bind _ _ m k := match m with
                  | Some a => k a
                  | None => None
                  end
|}.

(** A [for] loop over a list with an accumulator; the first exception
    leaves the loop. *)
Fixpoint for_each {A S} (l : list A) (body : S → A → result S) (s : S)
  : result S :=
  match l with
  | [] => ret s
  | x :: l' => s' ← body s x; for_each l' body s'
  end.

(** [l[i]] on a Python list. *)
Definition list_getitem {A} (l : list A) (i : nat) : result A :=
  match l !! i with
  | Some x => ret x
  | None => raise IndexError
  end.

(** A [dict] with [str] keys, in insertion order. *)
Definition dict (V : Type) : Type := list (string * V).

Definition keys {V} (d : dict V) : list string := d.*1.

Fixpoint dict_get {V} (d : dict V) (k : string) : option V :=
  match d with
  | [] => None
  | (k', v) :: d' => if String.eqb k' k then Some v else dict_get d' k
  end.

(** [d[k]] *)
Definition dict_getitem {V} (d : dict V) (k : string) : result V :=
  match dict_get d k with
  | Some v => ret v
  | None => raise (KeyError k)
  end.

(** [d[k] = v]: an existing key keeps its place, a new one goes last. *)
Fixpoint dict_setitem {V} (d : dict V) (k : string) (v : V) : dict V :=
  match d with
  | [] => [(k, v)]
  | (k', v') :: d' =>
      if String.eqb k' k then (k', v) :: d' else (k', v') :: dict_setitem d' k v
  end.

(** [s[::-1]] joined back into a [str]. *)
Definition str_reversed (s : string) : string :=
  string_of_list_ascii (rev (list_ascii_of_string s)).

End Py.

Import Py.
Local Open Scope py_scope.

(** ** The circuit interface of the library (qiskit.QuantumCircuit)

    Only what the notebook calls: registers and their bits, the circuit
    constructor, the gate methods [cx], [i], [x], [y], [z], [barrier],
    [measure] and [measure_all]. *)

Module Qiskit.

(** [QuantumRegister(size, name)] and [ClassicalRegister(size, name)]. *)
Record qreg : Type := QuantumRegister { qr_size : nat; qr_name : string }.
Record creg : Type := ClassicalRegister { cr_size : nat; cr_name : string }.

(** A bit is its register and its index there. *)
Record Qubit : Type := mkQubit { qubit_register : qreg; qubit_index : nat }.
Record Clbit : Type := mkClbit { clbit_register : creg; clbit_index : nat }.

Definition qreg_eqb (r s : qreg) : bool :=
  Nat.eqb (qr_size r) (qr_size s) && String.eqb (qr_name r) (qr_name s).
Definition creg_eqb (r s : creg) : bool :=
  Nat.eqb (cr_size r) (cr_size s) && String.eqb (cr_name r) (cr_name s).
Definition Qubit_eqb (a b : Qubit) : bool :=
  qreg_eqb (qubit_register a) (qubit_register b)
  && Nat.eqb (qubit_index a) (qubit_index b).
Definition Clbit_eqb (a b : Clbit) : bool :=
  creg_eqb (clbit_register a) (clbit_register b)
  && Nat.eqb (clbit_index a) (clbit_index b).

(** The bits of a register, in index order. *)
Definition qreg_bits (r : qreg) : list Qubit := mkQubit r <$> seq 0 (qr_size r).
Definition creg_bits (r : creg) : list Clbit := mkClbit r <$> seq 0 (cr_size r).

(** [r[k]] *)
Definition qreg_getitem (r : qreg) (k : nat) : result Qubit :=
  list_getitem (qreg_bits r) k.
Definition creg_getitem (r : creg) (k : nat) : result Clbit :=
  list_getitem (creg_bits r) k.

(** A quantum argument of a gate method is a bit or a whole register. *)
Inductive qarg : Type :=
| OfQubit (b : Qubit)
| OfQreg (r : qreg).
Coercion OfQubit : Qubit >-> qarg.
Coercion OfQreg : qreg >-> qarg.

Definition qarg_bits (a : qarg) : list Qubit :=
  match a with
  | OfQubit b => [b]
  | OfQreg r => qreg_bits r
  end.

Inductive gate1 : Type := IGate | XGate | YGate | ZGate.

Inductive Instruction : Type :=
| Gate (g : gate1) (q : Qubit)
| CXGate (ctl tgt : Qubit)
| Barrier (qs : list Qubit)
| Measure (q : Qubit) (c : Clbit).

Record QuantumCircuit : Type := mkQuantumCircuit {
  qregs : list qreg;
  cregs : list creg;
  data : list Instruction
}.

Definition qubits (qc : QuantumCircuit) : list Qubit :=
  qregs qc ≫= qreg_bits.
Definition clbits (qc : QuantumCircuit) : list Clbit :=
  cregs qc ≫= creg_bits.
Definition num_qubits (qc : QuantumCircuit) : nat := length (qubits qc).
Definition num_clbits (qc : QuantumCircuit) : nat := length (clbits qc).

Fixpoint index_of {A} (eqb : A → A → bool) (x : A) (l : list A) : option nat :=
  match l with
  | [] => None
  | y :: l' => if eqb y x then Some 0 else S <$> index_of eqb x l'
  end.

(** The position of a bit among the circuit's bits. *)
Definition find_qubit (qc : QuantumCircuit) (b : Qubit) : option nat :=
  index_of Qubit_eqb b (qubits qc).
Definition find_clbit (qc : QuantumCircuit) (b : Clbit) : option nat :=
  index_of Clbit_eqb b (clbits qc).

Definition register_names (qc : QuantumCircuit) : list string :=
  (qr_name <$> qregs qc) ++ (cr_name <$> cregs qc).

Definition name_in (n : string) (l : list string) : bool :=
  existsb (String.eqb n) l.

Inductive register : Type :=
| QReg (r : qreg)
| CReg (r : creg).
Coercion QReg : qreg >-> register.
Coercion CReg : creg >-> register.

(** [qc.add_register(r)]: a second register of the same name is refused. *)
Definition add_register (qc : QuantumCircuit) (r : register)
  : result QuantumCircuit :=
  match r with
  | QReg r =>
      if name_in (qr_name r) (register_names qc)
      then raise (CircuitError "register name already exists")
      else ret (mkQuantumCircuit (qregs qc ++ [r]) (cregs qc) (data qc))
  | CReg r =>
      if name_in (cr_name r) (register_names qc)
      then raise (CircuitError "register name already exists")
      else ret (mkQuantumCircuit (qregs qc) (cregs qc ++ [r]) (data qc))
  end.

(** [QuantumCircuit(r1, r2, ...)]: the registers are added in turn. *)
Definition new_QuantumCircuit (regs : list register) : result QuantumCircuit :=
  for_each regs add_register (mkQuantumCircuit [] [] []).

Definition instruction_qubits (ins : Instruction) : list Qubit :=
  match ins with
  | Gate _ q => [q]
  | CXGate c t => [c; t]
  | Barrier qs => qs
  | Measure q _ => [q]
  end.

Definition instruction_clbits (ins : Instruction) : list Clbit :=
  match ins with
  | Measure _ c => [c]
  | _ => []
  end.

(** [qc.append]: the bits of an instruction must be bits of the circuit. *)
Definition append (qc : QuantumCircuit) (ins : Instruction)
  : result QuantumCircuit :=
  if forallb (λ b, bool_decide (is_Some (find_qubit qc b))) (instruction_qubits ins)
     && forallb (λ b, bool_decide (is_Some (find_clbit qc b))) (instruction_clbits ins)
  then ret (mkQuantumCircuit (qregs qc) (cregs qc) (data qc ++ [ins]))
  else raise (CircuitError "bit not in circuit").

(** A one-qubit gate method, broadcast over its argument. *)
Definition gate (g : gate1) (a : qarg) (qc : QuantumCircuit)
  : result QuantumCircuit :=
  for_each (qarg_bits a) (λ qc b, append qc (Gate g b)) qc.

Definition i := gate IGate.
Definition x := gate XGate.
Definition y := gate YGate.
Definition z := gate ZGate.

(** The pairs a two-argument method is broadcast over: equal lengths are
    zipped, a single bit is paired with each bit of the other side. *)
Definition broadcast2 {A B} (l : list A) (r : list B) : result (list (A * B)) :=
  if Nat.eqb (length l) (length r) then ret (zip l r)
  else match l, r with
       | [a], _ => ret ((λ b, (a, b)) <$> r)
       | _, [b] => ret ((λ a, (a, b)) <$> l)
       | _, _ => raise (CircuitError "Not sure how to combine these arguments")
       end.

(** [qc.cx(control, target)] *)
Definition cx (control target : qarg) (qc : QuantumCircuit)
  : result QuantumCircuit :=
  pairs ← broadcast2 (qarg_bits control) (qarg_bits target);
  for_each pairs
    (λ qc '(c, t),
       if Qubit_eqb c t then raise (CircuitError "duplicate qubit arguments")
       else append qc (CXGate c t))
    qc.

(** [qc.barrier()] with no argument spans every qubit of the circuit. *)
Definition barrier (qc : QuantumCircuit) : result QuantumCircuit :=
  append qc (Barrier (qubits qc)).

(** [qc.measure(qubits, clbits)] *)
Definition measure (qs : list Qubit) (cs : list Clbit) (qc : QuantumCircuit)
  : result QuantumCircuit :=
  pairs ← broadcast2 qs cs;
  for_each pairs (λ qc '(q, c), append qc (Measure q c)) qc.

(** [qc.measure_all()]: a new classical register [meas] with one bit per
    qubit is added to the circuit, then a barrier, then every qubit is
    measured into the bit of its own position. *)
Definition measure_all (qc : QuantumCircuit) : result QuantumCircuit :=
  let new_creg := ClassicalRegister (num_qubits qc) "meas" in
  qc ← add_register qc new_creg;
  qc ← barrier qc;
  measure (qubits qc) (creg_bits new_creg) qc.

End Qiskit.

Import Qiskit.

(** ** The simulator (qiskit.providers.aer.QasmSimulator)

    A backend runs a circuit for a number of shots and hands back a job,
    the job a result, the result a table of counts.  The model of
    [QasmSimulator] covers the instructions of the circuit interface above.
    These gates map a basis state to a basis state times a phase, so a state
    is a list of basis states with amplitudes in the Gaussian integers, and
    a measurement outcome can occur when the terms that agree with it carry
    weight. *)

Module Aer.

(** [Counts]: from the bit-string of a shot to the number of shots. *)
Definition Counts : Type := dict Z.

Record Backend : Type := mkBackend {
  Job : Type;
  Result : Type;
  run : QuantumCircuit → nat → result Job;
  job_result : Job → result Result;
  get_counts : Result → result Counts
}.

(** [re + i im] *)
Definition amp : Type := (Z * Z)%type.
Definition amp_neg (a : amp) : amp := (- a.1, - a.2)%Z.
Definition amp_mul_i (a : amp) : amp := (- a.2, a.1)%Z.
Definition amp_norm2 (a : amp) : Z := (a.1 * a.1 + a.2 * a.2)%Z.

(** A basis state gives the value of each qubit, by position. *)
Definition basis : Type := list bool.
Definition statevector : Type := list (basis * amp).

Definition bit (k : nat) (bs : basis) : bool := default false (bs !! k).
Definition flip (k : nat) (bs : basis) : basis := alter negb k bs.

(** [I], [X], [Y] and [Z] on qubit [k] of one term:
    [Y|0> = i|1>], [Y|1> = -i|0>], [Z|1> = -|1>]. *)
Definition apply_gate (g : gate1) (k : nat) (t : basis * amp) : basis * amp :=
  match g with
  | IGate => t
  | XGate => (flip k t.1, t.2)
  | YGate => (flip k t.1,
              if bit k t.1 then amp_neg (amp_mul_i t.2) else amp_mul_i t.2)
  | ZGate => (t.1, if bit k t.1 then amp_neg t.2 else t.2)
  end.

Definition apply_cx (c k : nat) (t : basis * amp) : basis * amp :=
  (if bit c t.1 then flip k t.1 else t.1, t.2).

(** The weight of reading [b] on qubit [k]. *)
Definition weight (k : nat) (b : bool) (psi : statevector) : Z :=
  foldr (λ t w, if Bool.eqb (bit k t.1) b then (amp_norm2 t.2 + w)%Z else w)
        0%Z psi.

Definition project (k : nat) (b : bool) (psi : statevector) : statevector :=
  List.filter (λ t, Bool.eqb (bit k t.1) b) psi.

(** Measuring qubit [k]: an outcome of weight zero cannot occur; when both
    can, the shot's random choice [coin] decides.  The state is projected
    on the outcome. *)
Definition measure_qubit (coin : bool) (k : nat) (psi : statevector)
  : bool * statevector :=
  let outcome :=
    if Z.eqb (weight k true psi) 0 then false
    else if Z.eqb (weight k false psi) 0 then true
    else coin in
  (outcome, project k outcome psi).

(** State of a shot in progress: the quantum state, the classical memory
    and the number of measurements made. *)
Record shot_state : Type := mkShot {
  psi : statevector;
  memory : list bool;
  measured : nat
}.

Definition lookup_qubit (qc : QuantumCircuit) (q : Qubit) : result nat :=
  match find_qubit qc q with
  | Some k => ret k
  | None => raise (AerError "unknown qubit")
  end.

Definition lookup_clbit (qc : QuantumCircuit) (c : Clbit) : result nat :=
  match find_clbit qc c with
  | Some k => ret k
  | None => raise (AerError "unknown clbit")
  end.

Definition step (qc : QuantumCircuit) (coins : nat → bool)
    (s : shot_state) (ins : Instruction) : result shot_state :=
  match ins with
  | Gate g q =>
      k ← lookup_qubit qc q;
      ret (mkShot (apply_gate g k <$> psi s) (memory s) (measured s))
  | CXGate c t =>
      kc ← lookup_qubit qc c;
      kt ← lookup_qubit qc t;
      ret (mkShot (apply_cx kc kt <$> psi s) (memory s) (measured s))
  | Barrier _ => ret s
  | Measure q c =>
      k ← lookup_qubit qc q;
      j ← lookup_clbit qc c;
      let '(b, psi') := measure_qubit (coins (measured s)) k (psi s) in
      ret (mkShot psi' (<[j:=b]> (memory s)) (S (measured s)))
  end.

(** Every shot starts from [|0...0>] and a cleared memory. *)
Definition initial (qc : QuantumCircuit) : shot_state :=
  mkShot [(replicate (num_qubits qc) false, (1, 0)%Z)]
         (replicate (num_clbits qc) false) 0.

(** A shot whose first qubit starts in [a|0> + b|1>] instead. *)
Definition initial_with (qc : QuantumCircuit) (a b : amp) : shot_state :=
  mkShot [(replicate (num_qubits qc) false, a);
          (<[0:=true]> (replicate (num_qubits qc) false), b)]
         (replicate (num_clbits qc) false) 0.

(** The squared norm of a state whose terms are distinct basis states. *)
Definition norm2 (psi : statevector) : Z :=
  foldr (λ t w, (amp_norm2 t.2 + w)%Z) 0%Z psi.

(** The circuit with its measurements left out. *)
Definition without_measure (qc : QuantumCircuit) : QuantumCircuit :=
  mkQuantumCircuit (qregs qc) (cregs qc)
    (List.filter (λ ins, match ins with Measure _ _ => false | _ => true end)
                 (data qc)).

Definition run_from (qc : QuantumCircuit) (coins : nat → bool) (s : shot_state)
  : result shot_state :=
  for_each (data qc) (step qc coins) s.

Definition run_shot (qc : QuantumCircuit) (coins : nat → bool)
  : result shot_state :=
  run_from qc coins (initial qc).

(** The memory cut into the circuit's classical registers. *)
Fixpoint split_registers (rs : list creg) (mem : list bool) : list (list bool) :=
  match rs with
  | [] => []
  | r :: rs' => take (cr_size r) mem :: split_registers rs' (drop (cr_size r) mem)
  end.

Definition bit_char (b : bool) : ascii := if b then "1"%char else "0"%char.

(** A register is written with its highest bit first. *)
Definition register_string (bits : list bool) : string :=
  string_of_list_ascii (rev (bit_char <$> bits)).

(** The key of a shot: the registers, the last added first, separated by
    a space. *)
Definition format_memory (qc : QuantumCircuit) (mem : list bool) : string :=
  String.concat " " (rev (register_string <$> split_registers (cregs qc) mem)).

(** [counts[key] = counts.get(key, 0) + 1] *)
Definition count_shot (counts : Counts) (key : string) : result Counts :=
  ret (dict_setitem counts key (default 0%Z (dict_get counts key) + 1)%Z).

(** The key one shot contributes to the counts. *)
Definition shot_key (qc : QuantumCircuit) (coins : nat → bool) : result string :=
  final ← run_shot qc coins;
  ret (format_memory qc (memory final)).

Definition has_measure (qc : QuantumCircuit) : bool :=
  existsb (λ ins, match ins with Measure _ _ => true | _ => false end) (data qc).

(** [QasmSimulator()], with the random choices of shot [s] given by
    [rng s].  A job holds the keys of its shots, or nothing when the
    circuit measures nothing. *)
Definition QasmSimulator (rng : nat → nat → bool) : Backend := {|
  Job := option (list string);
  Result := option (list string);
  run qc shots :=
    keys ← for_each (seq 0 shots)
             (λ (keys : list string) s,
                key ← shot_key qc (rng s);
                ret (keys ++ [key]))
             [];
    ret (if has_measure qc then Some keys else None);
  job_result job := ret job;
  get_counts res :=
    match res with
    | Some keys => for_each keys count_shot []
    | None => raise (AerError "No counts for experiment")
    end
|}.

(** The characters of a key, register by register. *)
Fixpoint split_on_space (s : string) : list string :=
  match s with
  | EmptyString => [EmptyString]
  | String c s' =>
      if Ascii.eqb c " "%char then EmptyString :: split_on_space s'
      else match split_on_space s' with
           | [] => [String c EmptyString]
           | w :: ws => String c w :: ws
           end
  end.

(** The character a key holds for classical bit [c] of the circuit. *)
Definition key_bit (qc : QuantumCircuit) (key : string) (c : Clbit)
  : option ascii :=
  k ← index_of creg_eqb (clbit_register c) (rev (cregs qc));
  seg ← split_on_space key !! k;
  rev (list_ascii_of_string seg) !! clbit_index c.

(** The classical bit qubit [q] is measured into (the last one, if it is
    measured more than once). *)
Definition measured_into (qc : QuantumCircuit) (q : Qubit) : option Clbit :=
  foldl (λ acc ins,
           match ins with
           | Measure q' c => if Qubit_eqb q' q then Some c else acc
           | _ => acc
           end) None (data qc).

(** What a key says about qubit [q]. *)
Definition key_qubit (qc : QuantumCircuit) (key : string) (q : Qubit)
  : option ascii :=
  c ← measured_into qc q; key_bit qc key c.

End Aer.

Import Aer.

(** ** Circuit objects

    A [QuantumCircuit] is a mutable object: the gate methods change it in
    place, and a variable holds a reference to it.  The heap is the list of
    the circuit objects alive, a reference is a position in it. *)

Module Heap.

Definition ref : Type := nat.
Abbreviation heap := (list QuantumCircuit).

(** A computation that reads and changes the heap, or raises. *)
Definition Py (A : Type) : Type := heap → result (A * heap).

#[export] Instance Py_monad : Monad Py := {|
  ret _ a := λ h, inr (a, h);
  bind _ _ m k := λ h, match m h with
                       | inl e => inl e
                       | inr (a, h') => k a h'
                       end
|}.

(** A call that does not touch the heap. *)
Definition lift {A} (r : result A) : Py A := λ h,
  match r with
  | inl e => inl e
  | inr a => inr (a, h)
  end.

(** A constructor call: the new object gets a fresh reference. *)
Definition new (c : result QuantumCircuit) : Py ref := λ h,
  match c with
  | inl e => inl e
  | inr c => inr (length h, h ++ [c])
  end.

Definition deref (r : ref) : Py QuantumCircuit := λ h,
  match h !! r with
  | Some c => inr (c, h)
  | None => inl ReferenceError
  end.

(** [r.method(...)]: the object behind [r] is replaced by what the method
    makes of it; when the method raises, the object is left as it was. *)
Definition call (r : ref) (method : QuantumCircuit → result QuantumCircuit)
  : Py unit := λ h,
  match h !! r with
  | Some c =>
      match method c with
      | inl e => inl e
      | inr c' => inr ((), <[r:=c']> h)
      end
  | None => inl ReferenceError
  end.

(** [m] reads and changes the object behind [r] only, as [p] says. *)
Definition confined {A} (r : ref) (m : Py A)
    (p : QuantumCircuit → result (A * QuantumCircuit)) : Prop :=
  ∀ (h : heap) (c : QuantumCircuit), h !! r = Some c →
    m h = match p c with
          | inl e => inl e
          | inr (a, c') => inr (a, <[r:=c']> h)
          end.

End Heap.

Import Heap.

(** ** The notebook *)

Module Notebook.

(** [class ErrorSims(Enum)] *)
Inductive ErrorSims : Type :=
| NoError | XError1 | XError2 | XError3
| XError12 | XError13 | XError23
| ZError1 | ZError2
| YError1 | YError2.

Definition value (e : ErrorSims) : Z :=
  match e with
  | NoError => 0 | XError1 => 1 | XError2 => 2 | XError3 => 3
  | XError12 => 4 | XError13 => 5 | XError23 => 6
  | ZError1 => 7 | ZError2 => 8
  | YError1 => 9 | YError2 => 10
  end.

Definition ErrorSims_eqb (e f : ErrorSims) : bool := Z.eqb (value e) (value f).

(** What a caller can pass for [i]: the annotation [i: ErrorSims] is not
    checked when the function is called. *)
Inductive pyval : Type :=
| PyNone
| PyBool (b : bool)
| PyInt (n : Z)
| PyStr (s : string)
| PyEnum (e : ErrorSims).

(** [v == w].  A member of a plain [Enum] is equal to itself only, not to
    its value; [True] and [False] are the integers 1 and 0. *)
Definition py_eq (v w : pyval) : bool :=
  match v, w with
  | PyNone, PyNone => true
  | PyBool a, PyBool b => Bool.eqb a b
  | PyInt a, PyInt b => Z.eqb a b
  | PyBool a, PyInt b | PyInt b, PyBool a => Z.eqb (if a then 1 else 0) b
  | PyStr a, PyStr b => String.eqb a b
  | PyEnum a, PyEnum b => ErrorSims_eqb a b
  | _, _ => false
  end.

(** A local variable that is bound on some paths only. *)
Definition local {A} (name : string) (v : option A) : Py A :=
  match v with
  | Some a => ret a
  | None => lift (raise (UnboundLocalError name))
  end.

(** [r[k]] on a register, as an expression of the function body. *)
Notation "r '.[' k ']'" := (lift (qreg_getitem r k)) (at level 1, k at level 200).

(** [def qcirc(i: ErrorSims, measure_all: bool = False) -> QuantumCircuit] *)
Definition qcirc (i : pyval) (measure_all : bool) : Py ref :=
  let q := QuantumRegister 1 "q" in (* data qubit *)
  let d := QuantumRegister 2 "d" in (* redundancy qubits *)
  let a := QuantumRegister 2 "a" in (* ancilla qubits *)
  '(qc, c) ←
    (if negb measure_all then
       (* classical bits *)
       let c := ClassicalRegister 2 "c" in
       qc ← new (new_QuantumCircuit [QReg q; QReg d; QReg a; CReg c]);
       ret (qc, Some c)
     else
       qc ← new (new_QuantumCircuit [QReg q; QReg d; QReg a]);
       ret (qc, None));
  (* redundancy *)
  d0 ← d.[0]; call qc (cx q d0);;
  d0 ← d.[0]; d1 ← d.[1]; call qc (cx d0 d1);;
  call qc barrier;;
  (* match i: the first case whose member is equal to i runs, and when
     none is the statement does nothing *)
  (if py_eq i (PyEnum NoError) then
     call qc (Qiskit.i q);; d0 ← d.[0]; call qc (Qiskit.i d0);;
     d1 ← d.[1]; call qc (Qiskit.i d1)
   else if py_eq i (PyEnum XError1) then
     call qc (x q);; d0 ← d.[0]; call qc (Qiskit.i d0);;
     d1 ← d.[1]; call qc (Qiskit.i d1)
   else if py_eq i (PyEnum XError2) then
     call qc (Qiskit.i q);; d0 ← d.[0]; call qc (x d0);;
     d1 ← d.[1]; call qc (Qiskit.i d1)
   else if py_eq i (PyEnum XError3) then
     call qc (Qiskit.i q);; d0 ← d.[0]; call qc (Qiskit.i d0);;
     d1 ← d.[1]; call qc (x d1)
   else if py_eq i (PyEnum XError12) then
     call qc (x q);; d0 ← d.[0]; call qc (x d0);;
     d1 ← d.[1]; call qc (Qiskit.i d1)
   else if py_eq i (PyEnum XError13) then
     call qc (x q);; d0 ← d.[0]; call qc (Qiskit.i d0);;
     d1 ← d.[1]; call qc (x d1)
   else if py_eq i (PyEnum XError23) then
     call qc (Qiskit.i q);; d0 ← d.[0]; call qc (x d0);;
     d1 ← d.[1]; call qc (x d1)
   else if py_eq i (PyEnum ZError1) then
     call qc (z q);; d0 ← d.[0]; call qc (Qiskit.i d0);;
     d1 ← d.[1]; call qc (Qiskit.i d1)
   else if py_eq i (PyEnum ZError2) then
     call qc (Qiskit.i q);; d0 ← d.[0]; call qc (z d0);;
     d1 ← d.[1]; call qc (Qiskit.i d1)
   else if py_eq i (PyEnum YError1) then
     call qc (y q);; d0 ← d.[0]; call qc (Qiskit.i d0);;
     d1 ← d.[1]; call qc (Qiskit.i d1)
   else if py_eq i (PyEnum YError2) then
     call qc (Qiskit.i q);; d0 ← d.[0]; call qc (y d0);;
     d1 ← d.[1]; call qc (Qiskit.i d1)
   else ret ());;
  call qc barrier;;
  (* parity check *)
  a0 ← a.[0]; call qc (cx q a0);;
  d0 ← d.[0]; a0 ← a.[0]; call qc (cx d0 a0);;
  a1 ← a.[1]; call qc (cx q a1);;
  d1 ← d.[1]; a1 ← a.[1]; call qc (cx d1 a1);;
  call qc barrier;;
  (if measure_all then call qc Qiskit.measure_all
   else
     a0 ← a.[0]; a1 ← a.[1];
     c ← local "c" c;
     c0 ← lift (creg_getitem c 0); c1 ← lift (creg_getitem c 1);
     call qc (measure [a0; a1] [c0; c1]));;
  ret qc.

Section Simulation.

(** The notebook's global [qsim = QasmSimulator()]. *)
Variable qsim : Backend.

(** [def qcirc_sim(qc: QuantumCircuit) -> Counts] *)
Definition qcirc_sim (qc : ref) : Py Counts :=
  circuit ← deref qc;
  job ← lift (run qsim circuit 1024);
  result ← lift (job_result qsim job);
  counts ← lift (get_counts qsim result);
  ret counts.

End Simulation.

(** [def counts_bit_reversed(counts: str) -> dict] *)
Definition counts_bit_reversed (counts : Counts) : result Counts :=
  let a := [] in
  for_each (keys counts)
    (λ a b,
       first ← list_getitem (keys counts) 0;
       n ← dict_getitem counts b;
       ret (dict_setitem a (str_reversed first) n))
    a.

(** [list(counts_bit_reversed(counts).keys())[0]], the notebook's
    [syndrome]. *)
Definition syndrome_of (counts : Counts) : result string :=
  reversed ← counts_bit_reversed counts;
  list_getitem (keys reversed) 0.

(** A scenario as the notebook runs it: build the circuit, simulate it,
    and read the syndrome off the reversed key. *)
Definition scenario (qsim : Backend) (i : pyval) (measure_all : bool)
  : Py (ref * Counts * string) :=
  qc ← qcirc i measure_all;
  counts ← qcirc_sim qsim qc;
  syndrome ← lift (syndrome_of counts);
  ret (qc, counts, syndrome).

End Notebook.

Import Notebook.

(** ** The circuits of the scenarios *)

Module Layout.

(** The registers [qcirc] makes, and the one [measure_all] adds. *)
Definition q : qreg := QuantumRegister 1 "q".
Definition d : qreg := QuantumRegister 2 "d".
Definition a : qreg := QuantumRegister 2 "a".
Definition c : creg := ClassicalRegister 2 "c".
Definition meas : creg := ClassicalRegister 5 "meas".

Definition q_0 : Qubit := mkQubit q 0.
Definition d_0 : Qubit := mkQubit d 0.
Definition d_1 : Qubit := mkQubit d 1.
Definition a_0 : Qubit := mkQubit a 0.
Definition a_1 : Qubit := mkQubit a 1.

Definition all_qubits : list Qubit := [q_0; d_0; d_1; a_0; a_1].
Definition data_qubits : list Qubit := [q_0; d_0; d_1].
Definition ancilla_qubits : list Qubit := [a_0; a_1].

(** The gates the cases of [match i] put on [q], [d[0]] and [d[1]]. *)
Definition error_gates (t : ErrorSims) : gate1 * gate1 * gate1 :=
  match t with
  | NoError => (IGate, IGate, IGate)
  | XError1 => (XGate, IGate, IGate)
  | XError2 => (IGate, XGate, IGate)
  | XError3 => (IGate, IGate, XGate)
  | XError12 => (XGate, XGate, IGate)
  | XError13 => (XGate, IGate, XGate)
  | XError23 => (IGate, XGate, XGate)
  | ZError1 => (ZGate, IGate, IGate)
  | ZError2 => (IGate, ZGate, IGate)
  | YError1 => (YGate, IGate, IGate)
  | YError2 => (IGate, YGate, IGate)
  end.

(** The circuit a call of [qcirc] builds when it starts with no other
    object alive. *)
Definition built (i : pyval) (measure_all : bool) : option QuantumCircuit :=
  match qcirc i measure_all [] with
  | inr (qc, h) => h !! qc
  | inl _ => None
  end.

(** The qubits a circuit measures, in the order it measures them. *)
Definition measured_qubits (qc : QuantumCircuit) : list Qubit :=
  data qc ≫= λ ins, match ins with Measure q _ => [q] | _ => [] end.

(** No qubit other than an ancilla is measured. *)
Definition only_ancillas_measured (qc : QuantumCircuit) : Prop :=
  ∀ q, In q (measured_qubits qc) → In q ancilla_qubits.

(** The measurements of the circuit leave the quantum state as it is:
    with the data qubit [q] in any state [a|0> + b|1>] that is not zero,
    a shot ends in the state it ends in when nothing is measured. *)
Definition undisturbed (qc : QuantumCircuit) : Prop :=
  ∀ (a b : amp) (coins : nat → bool),
    a ≠ (0, 0)%Z ∨ b ≠ (0, 0)%Z →
    ∃ s s',
      run_from qc coins (initial_with qc a b) = inr s
      ∧ run_from (without_measure qc) coins (initial_with qc a b) = inr s'
      ∧ psi s = psi s'.

(** The two characters a key holds for the ancillas, [a[0]] first. *)
Definition ancilla_bits (qc : QuantumCircuit) (key : string) : option string :=
  b0 ← key_qubit qc key a_0;
  b1 ← key_qubit qc key a_1;
  ret (String b0 (String b1 EmptyString)).

(** Every shot of the circuit [qcirc i measure_all] gives [key], so that
    the counts hold this one key for all 1024 shots; the notebook's
    syndrome is then [syndrome] and the ancilla bits are [ancillas]. *)
Definition shots_yield (i : pyval) (measure_all : bool)
    (key syndrome ancillas : string) : Prop :=
  ∀ (rng : nat → nat → bool) (h : heap),
    ∃ circuit,
      scenario (QasmSimulator rng) i measure_all h
        = inr ((length h, [(key, 1024%Z)], syndrome), h ++ [circuit])
      ∧ (∀ coins, shot_key circuit coins = inr key)
      ∧ ancilla_bits circuit key = Some ancillas.

End Layout.

Import Layout.

(** ** The code the circuits compute *)

Module ParityCode.

(** Whether a gate changes the computational-basis value of its qubit:
    [x] and [y] do, [i] and [z] do not. *)
Definition bit_flip (g : gate1) : bool :=
  match g with
  | XGate | YGate => true
  | IGate | ZGate => false
  end.

(** The qubits a tag flips, for [q], [d[0]] and [d[1]]. *)
Definition flips (t : ErrorSims) : list bool :=
  let '(g1, g2, g3) := error_gates t in [bit_flip g1; bit_flip g2; bit_flip g3].

Definition flip_weight (t : ErrorSims) : nat :=
  length (List.filter id (flips t)).

(** The two parity checks of [qcirc]: [a[0]] takes [q] and [d[0]], [a[1]]
    takes [q] and [d[1]]. *)
Definition parities (data : list bool) : list bool :=
  [xorb (bit 0 data) (bit 1 data); xorb (bit 0 data) (bit 2 data)].

Definition bits_string (bs : list bool) : string :=
  string_of_list_ascii (bit_char <$> bs).

(** The ancilla bits of a tag, [a[0]] first. *)
Definition parity_syndrome (t : ErrorSims) : string :=
  bits_string (parities (flips t)).

(** What the notebook reads off the reversed key: the ancillas, or with
    [measure_all] the five qubits in the order [q], [d[0]], [d[1]], [a[0]],
    [a[1]]. *)
Definition reading (t : ErrorSims) (measure_all : bool) : string :=
  if measure_all then bits_string (flips t ++ parities (flips t))
  else parity_syndrome t.

(** The two basis states of the encoded qubit after the error and the
    parity checks: the one that comes from [|000>] and the one from
    [|111>]. *)
Definition code0 (t : ErrorSims) : basis := flips t ++ parities (flips t).
Definition code1 (t : ErrorSims) : basis :=
  (negb <$> flips t) ++ parities (flips t).

(** The amplitudes of these two states: [z] changes the sign of the
    second, [y] multiplies the first by [i] and the second by [-i]. *)
Definition phases (t : ErrorSims) (a b : amp) : amp * amp :=
  match t with
  | ZError1 | ZError2 => (a, amp_neg b)
  | YError1 | YError2 => (amp_mul_i a, amp_neg (amp_mul_i b))
  | _ => (a, b)
  end.

End ParityCode.

Import ParityCode.

(** ** The subject of the match statement *)

Module Subject.

(** The members the cases of [match i] name, in the order of the cases. *)
Definition cases : list ErrorSims :=
  [NoError; XError1; XError2; XError3; XError12; XError13; XError23;
   ZError1; ZError2; YError1; YError2].

(** What the statement sees of its subject [i], whatever object it is:
    for each member, what the test of [i == member] gives, true, false or
    an exception.  The statement tests a member at most once, so an object
    whose answers change from one test to the next is covered too. *)
Definition subject : Type := ErrorSims → result bool.

(** The values of [pyval] answer every test, as [py_eq] says. *)
Definition of_pyval (v : pyval) : subject := λ t, ret (py_eq v (PyEnum t)).

(** The case that runs: the first one whose test gives true; an exception
    of a test ends the search. *)
Fixpoint first_case (i : subject) (ts : list ErrorSims) : result (option ErrorSims) :=
  match ts with
  | [] => ret None
  | t :: ts' => b ← i t; if b then ret (Some t) else first_case i ts'
  end.

(** The instructions of the circuit when no case runs: nothing stands
    between the barrier after the encoding and the one before the parity
    checks. *)
Definition no_case_data (measure_all : bool) : list Instruction :=
  [CXGate q_0 d_0; CXGate d_0 d_1; Barrier all_qubits;
   Barrier all_qubits;
   CXGate q_0 a_0; CXGate d_0 a_0; CXGate q_0 a_1; CXGate d_1 a_1;
   Barrier all_qubits]
  ++ (if measure_all
      then Barrier all_qubits :: zip_with Measure all_qubits (creg_bits meas)
      else [Measure a_0 (mkClbit c 0); Measure a_1 (mkClbit c 1)]).

(** [qcirc] for any subject: the body of [qcirc] with each test of
    [match i] left to the subject. *)
Definition qcirc_object (i : subject) (measure_all : bool) : Py ref :=
  let q := QuantumRegister 1 "q" in (* data qubit *)
  let d := QuantumRegister 2 "d" in (* redundancy qubits *)
  let a := QuantumRegister 2 "a" in (* ancilla qubits *)
  '(qc, c) ←
    (if negb measure_all then
       (* classical bits *)
       let c := ClassicalRegister 2 "c" in
       qc ← new (new_QuantumCircuit [QReg q; QReg d; QReg a; CReg c]);
       ret (qc, Some c)
     else
       qc ← new (new_QuantumCircuit [QReg q; QReg d; QReg a]);
       ret (qc, None));
  (* redundancy *)
  d0 ← d.[0]; call qc (cx q d0);;
  d0 ← d.[0]; d1 ← d.[1]; call qc (cx d0 d1);;
  call qc barrier;;
  (* match i *)
  (
   b ← lift (i NoError);
   if b then
     call qc (Qiskit.i q);; d0 ← d.[0]; call qc (Qiskit.i d0);;
     d1 ← d.[1]; call qc (Qiskit.i d1)
   else
   b ← lift (i XError1);
   if b then
     call qc (x q);; d0 ← d.[0]; call qc (Qiskit.i d0);;
     d1 ← d.[1]; call qc (Qiskit.i d1)
   else
   b ← lift (i XError2);
   if b then
     call qc (Qiskit.i q);; d0 ← d.[0]; call qc (x d0);;
     d1 ← d.[1]; call qc (Qiskit.i d1)
   else
   b ← lift (i XError3);
   if b then
     call qc (Qiskit.i q);; d0 ← d.[0]; call qc (Qiskit.i d0);;
     d1 ← d.[1]; call qc (x d1)
   else
   b ← lift (i XError12);
   if b then
     call qc (x q);; d0 ← d.[0]; call qc (x d0);;
     d1 ← d.[1]; call qc (Qiskit.i d1)
   else
   b ← lift (i XError13);
   if b then
     call qc (x q);; d0 ← d.[0]; call qc (Qiskit.i d0);;
     d1 ← d.[1]; call qc (x d1)
   else
   b ← lift (i XError23);
   if b then
     call qc (Qiskit.i q);; d0 ← d.[0]; call qc (x d0);;
     d1 ← d.[1]; call qc (x d1)
   else
   b ← lift (i ZError1);
   if b then
     call qc (z q);; d0 ← d.[0]; call qc (Qiskit.i d0);;
     d1 ← d.[1]; call qc (Qiskit.i d1)
   else
   b ← lift (i ZError2);
   if b then
     call qc (Qiskit.i q);; d0 ← d.[0]; call qc (z d0);;
     d1 ← d.[1]; call qc (Qiskit.i d1)
   else
   b ← lift (i YError1);
   if b then
     call qc (y q);; d0 ← d.[0]; call qc (Qiskit.i d0);;
     d1 ← d.[1]; call qc (Qiskit.i d1)
   else
   b ← lift (i YError2);
   if b then
     call qc (Qiskit.i q);; d0 ← d.[0]; call qc (y d0);;
     d1 ← d.[1]; call qc (Qiskit.i d1)
   else
   ret ());;
  call qc barrier;;
  (* parity check *)
  a0 ← a.[0]; call qc (cx q a0);;
  d0 ← d.[0]; a0 ← a.[0]; call qc (cx d0 a0);;
  a1 ← a.[1]; call qc (cx q a1);;
  d1 ← d.[1]; a1 ← a.[1]; call qc (cx d1 a1);;
  call qc barrier;;
  (if measure_all then call qc Qiskit.measure_all
   else
     a0 ← a.[0]; a1 ← a.[1];
     c ← local "c" c;
     c0 ← lift (creg_getitem c 0); c1 ← lift (creg_getitem c 1);
     call qc (measure [a0; a1] [c0; c1]));;
  ret qc.

End Subject.

Import Subject.

(** ** Calls confined to one object *)

Section Confined.

Context (r : ref).

Lemma confined_ret {A} (a : A) : confined r (ret a) (λ c, inr (a, c)).
Proof. intros h c Hc. cbn. by rewrite list_insert_id. Qed.

Lemma confined_lift {A} (x : result A) :
  confined r (lift x)
    (λ c, match x with inl e => inl e | inr a => inr (a, c) end).
Proof.
  intros h c Hc. unfold lift. destruct x; [done|]. by rewrite list_insert_id.
Qed.

Lemma confined_call f :
  confined r (call r f)
    (λ c, match f c with inl e => inl e | inr c' => inr ((), c') end).
Proof. intros h c Hc. unfold call. rewrite Hc. by destruct (f c). Qed.

Lemma confined_bind {A B} (m : Py A) (k : A → Py B) p q :
  confined r m p → (∀ a, confined r (k a) (q a)) →
  confined r (bind m k)
    (λ c, match p c with inl e => inl e | inr (a, c') => q a c' end).
Proof.
  intros Hm Hk h c Hc. cbn. rewrite (Hm h c Hc).
  destruct (p c) as [e|[a c']]; [done|].
  rewrite (Hk a (<[r:=c']> h) c').
  - destruct (q a c') as [e|[b c'']]; [done|]. by rewrite list_insert_insert_eq.
  - apply list_lookup_insert_eq. by eapply lookup_lt_Some.
Qed.

Lemma confined_if {A} (b : bool) (m1 m2 : Py A) p1 p2 :
  confined r m1 p1 → confined r m2 p2 →
  confined r (if b then m1 else m2) (if b then p1 else p2).
Proof. by destruct b. Qed.

Lemma confined_local {A} n (v : option A) :
  confined r (local n v)
    (λ c, match v with
          | Some a => inr (a, c)
          | None => inl (UnboundLocalError n)
          end).
Proof. destruct v; [apply confined_ret|apply (confined_lift (inl _))]. Qed.

(** On the object allocated last, with the older objects left alone. *)
Lemma confined_last {A} (m : Py A) p (h : heap) c0 :
  confined r m p → r = length h →
  m (h ++ [c0]) = match p c0 with
                  | inl e => inl e
                  | inr (a, c') => inr (a, h ++ [c'])
                  end.
Proof.
  intros Hm ->. rewrite (Hm (h ++ [c0]) c0) by by apply list_lookup_middle.
  destruct (p c0) as [e|[a c']]; [done|].
  replace (length h) with (length h + 0) by lia.
  by rewrite insert_app_r.
Qed.

End Confined.

Ltac confine :=
  repeat first
    [ eapply confined_bind; [|intros ?]
    | eapply confined_if
    | eapply confined_call
    | eapply confined_lift
    | eapply confined_local
    | eapply confined_ret ].

Lemma bind_new {A B} (c : QuantumCircuit) (f : ref → A) (k : A → Py B) (h : heap) :
  bind (bind (new (inr c)) (λ r, ret (f r))) k h = k (f (length h)) (h ++ [c]).
Proof. reflexivity. Qed.

(** The constructor call of [qcirc] is evaluated and its object allocated;
    what follows works on that object. *)
Ltac allocate :=
  unfold qcirc; cbn [negb];
  match goal with
  | |- context [new ?x] => let v := eval vm_compute in x in change x with v
  end;
  rewrite bind_new; cbv beta iota zeta.

Ltac build :=
  eexists; split; [vm_compute; reflexivity|];
  allocate;
  erewrite (confined_last (length _)); [|confine|reflexivity];
  vm_compute; reflexivity.

(** [qcirc] never raises, whatever it is given: it allocates one circuit,
    the same whatever else is alive, and touches nothing else. *)
Lemma qcirc_built (v : pyval) (m : bool) (h : heap) :
  ∃ c, built v m = Some c ∧ qcirc v m h = inr (length h, h ++ [c]).
Proof.
  destruct m; destruct v as [| | | |[]]; build.
Qed.

(** ** The sequence of operations *)

(** C4.  For every scenario tag, in any heap, [qcirc] builds a circuit
    whose instructions are, in this order: the encoding ([cx] from the data
    qubit to [d[0]], then [cx] from [d[0]] to [d[1]]), a barrier, the three
    gates of the tag, one on each of [q], [d[0]], [d[1]], given by the table
    [error_gates] of the tag alone, a barrier, the two parity checks ([cx]
    from [q] and [d[0]] onto [a[0]], from [q] and [d[1]] onto [a[1]]), a
    barrier, and the measurement: of the two ancillas into [c[0]] and [c[1]]
    when [measure_all] is left false, and otherwise a barrier and every
    qubit, the two ancillas among them, into the register [meas].  Either
    way both ancillas are measured. *)
Theorem qcirc_fixed_sequence (t : ErrorSims) (measure_all : bool) (h : heap) :
  ∃ circuit,
    qcirc (PyEnum t) measure_all h = inr (length h, h ++ [circuit])
    ∧ data circuit =
        [CXGate q_0 d_0; CXGate d_0 d_1; Barrier all_qubits]
        ++ (let '(g1, g2, g3) := error_gates t in
            [Gate g1 q_0; Gate g2 d_0; Gate g3 d_1])
        ++ [Barrier all_qubits;
            CXGate q_0 a_0; CXGate d_0 a_0; CXGate q_0 a_1; CXGate d_1 a_1;
            Barrier all_qubits]
        ++ (if measure_all
            then Barrier all_qubits
                 :: zip_with Measure all_qubits (creg_bits meas)
            else [Measure a_0 (mkClbit c 0); Measure a_1 (mkClbit c 1)])
    ∧ (∀ q, In q ancilla_qubits → In q (measured_qubits circuit)).
Proof.
  destruct (qcirc_built (PyEnum t) measure_all h) as (circuit & Hb & Hq).
  exists circuit. split; [exact Hq|].
  assert (measured_qubits circuit
          = if measure_all then all_qubits else ancilla_qubits) as Hm
    by (destruct t, measure_all; vm_compute in Hb; injection Hb as <-;
        reflexivity).
  split.
  - destruct t, measure_all; vm_compute in Hb; injection Hb as <-; reflexivity.
  - rewrite Hm. intros q0 Hq0. destruct measure_all; [|exact Hq0].
    destruct Hq0 as [<-|[<-|[]]]; cbn; tauto.
Qed.

(** ** Running a circuit *)

(** [qcirc_sim] on a live circuit object is the three calls to the backend
    in a row; the heap is not touched. *)
Lemma qcirc_sim_deref (qsim : Backend) (qc : ref) (h : heap) circuit :
  h !! qc = Some circuit →
  qcirc_sim qsim qc h =
    match run qsim circuit 1024 with
    | inl e => inl e
    | inr job =>
        match job_result qsim job with
        | inl e => inl e
        | inr res =>
            match get_counts qsim res with
            | inl e => inl e
            | inr counts => inr (counts, h)
            end
        end
    end.
Proof.
  intros Hqc. unfold qcirc_sim, deref, lift. cbn. rewrite Hqc.
  destruct (run qsim circuit 1024) as [e|job]; [done|].
  destruct (job_result qsim job) as [e|res]; [done|].
  by destruct (get_counts qsim res).
Qed.

(** A scenario is the circuit of [built], simulated and decoded. *)
Lemma scenario_built (qsim : Backend) (v : pyval) (m : bool) (h : heap) :
  ∃ circuit,
    built v m = Some circuit ∧
    scenario qsim v m h =
      match
        (job ← run qsim circuit 1024;
         res ← job_result qsim job;
         counts ← get_counts qsim res;
         syndrome ← syndrome_of counts;
         ret (counts, syndrome))
      with
      | inl e => inl e
      | inr (counts, syndrome) =>
          inr ((length h, counts, syndrome), h ++ [circuit])
      end.
Proof.
  destruct (qcirc_built v m h) as (circuit & Hb & Hq).
  exists circuit. split; [exact Hb|].
  unfold scenario. cbn [bind Py_monad]. rewrite Hq.
  rewrite (qcirc_sim_deref qsim _ _ circuit) by by apply list_lookup_middle.
  destruct (run qsim circuit 1024) as [e|job]; cbn [bind result_monad]; [done|].
  destruct (job_result qsim job) as [e|res]; cbn [bind result_monad]; [done|].
  destruct (get_counts qsim res) as [e|counts]; cbn [bind result_monad]; [done|].
  unfold lift. by destruct (syndrome_of counts).
Qed.

Section Deterministic.

(** A circuit all of whose shots give the same key. *)
Context (circuit : QuantumCircuit) (key : string).
Hypothesis every_shot : ∀ coins, shot_key circuit coins = inr key.

Lemma shots_constant (rng : nat → nat → bool) (n k : nat) (acc : list string) :
  for_each (seq k n)
    (λ (keys : list string) s,
       key ← shot_key circuit (rng s); ret (keys ++ [key]))
    acc
  = inr (acc ++ replicate n key).
Proof.
  revert k acc. induction n as [|n IH]; intros k acc; cbn [seq for_each replicate].
  - by rewrite app_nil_r.
  - rewrite every_shot. cbn [bind result_monad ret].
    rewrite IH. by rewrite <- app_assoc.
Qed.

Lemma count_constant (n : nat) (z : Z) :
  for_each (replicate n key) count_shot [(key, z)]
  = inr [(key, (z + Z.of_nat n)%Z)].
Proof.
  revert z. induction n as [|n IH]; intros z.
  - cbn. do 3 f_equal. lia.
  - cbn [replicate for_each]. unfold count_shot at 1.
    cbn. rewrite String.eqb_refl. cbn. rewrite IH. do 3 f_equal. lia.
Qed.

(** The counts of [shots] shots hold the one key, [shots] times. *)
Lemma counts_constant (rng : nat → nat → bool) (shots : nat) :
  has_measure circuit = true →
  (job ← run (QasmSimulator rng) circuit (S shots);
   res ← job_result (QasmSimulator rng) job;
   get_counts (QasmSimulator rng) res)
  = inr [(key, Z.of_nat (S shots))].
Proof.
  intros Hm. cbn [run job_result get_counts QasmSimulator].
  rewrite shots_constant, Hm. cbn [bind result_monad ret].
  cbn [app replicate for_each]. unfold count_shot at 1.
  cbn [dict_get default dict_setitem bind result_monad ret].
  rewrite count_constant. do 3 f_equal. lia.
Qed.

End Deterministic.

(** ** The syndromes *)

(** How [shots_yield] is shown: one shot of the built circuit is computed
    with its random choices left open, and the counts follow. *)
Lemma shots_yield_intro (v : pyval) (m : bool) circuit (key syndrome ancillas : string) :
  built v m = Some circuit →
  (∀ coins, shot_key circuit coins = inr key) →
  has_measure circuit = true →
  syndrome_of [(key, 1024%Z)] = inr syndrome →
  ancilla_bits circuit key = Some ancillas →
  shots_yield v m key syndrome ancillas.
Proof.
  intros Hb Hkey Hm Hs Ha rng h.
  destruct (scenario_built (QasmSimulator rng) v m h) as (circuit' & Hb' & ->).
  rewrite Hb in Hb'. injection Hb' as <-.
  exists circuit. split; [|by split].
  pose proof (counts_constant circuit key Hkey rng 1023 Hm) as Hc.
  change (Z.of_nat 1024) with 1024%Z in Hc.
  cbn [bind result_monad] in Hc |- *.
  destruct (run (QasmSimulator rng) circuit 1024) as [e|job]; [done|].
  destruct (job_result (QasmSimulator rng) job) as [e|res]; [done|].
  rewrite Hc, Hs. reflexivity.
Qed.

Ltac shots :=
  eapply shots_yield_intro;
  [ vm_compute; reflexivity
  | intros coins; vm_compute; reflexivity
  | vm_compute; reflexivity
  | vm_compute; reflexivity
  | vm_compute; reflexivity ].

(** C1.  With [measure_all] left false, every simulated shot of the
    circuits of [NoError], [XError1], [XError2] and [XError3] gives one
    fixed key, and the syndrome printed after [counts_bit_reversed], which
    reads the ancillas in the order [a[0]], [a[1]], is 00 for no error, 11
    for a bit flip on qubit 1, 10 on qubit 2 and 01 on qubit 3. *)
Theorem single_bit_flip_syndromes :
  shots_yield (PyEnum NoError) false "00" "00" "00"
  ∧ shots_yield (PyEnum XError1) false "11" "11" "11"
  ∧ shots_yield (PyEnum XError2) false "01" "10" "10"
  ∧ shots_yield (PyEnum XError3) false "10" "01" "01".
Proof. repeat split; shots. Qed.


(** C3.  Whether the ancillas alone are measured or, as the notebook does
    for these tags, every qubit, the two ancilla bits of every shot are 00
    for [ZError1] and [ZError2], and for [YError1] and [YError2] the whole
    outcome is that of [XError1] and of [XError2]: ancilla bits 11 and
    10. *)
Theorem phase_errors_undetected :
  (shots_yield (PyEnum ZError1) false "00" "00" "00"
   ∧ shots_yield (PyEnum ZError2) false "00" "00" "00"
   ∧ (shots_yield (PyEnum YError1) false "11" "11" "11"
      ∧ shots_yield (PyEnum XError1) false "11" "11" "11")
   ∧ (shots_yield (PyEnum YError2) false "01" "10" "10"
      ∧ shots_yield (PyEnum XError2) false "01" "10" "10"))
  ∧ (shots_yield (PyEnum ZError1) true "00000" "00000" "00"
     ∧ shots_yield (PyEnum ZError2) true "00000" "00000" "00"
     ∧ (shots_yield (PyEnum YError1) true "11001" "10011" "11"
        ∧ shots_yield (PyEnum XError1) true "11001" "10011" "11")
     ∧ (shots_yield (PyEnum YError2) true "01010" "01010" "10"
        ∧ shots_yield (PyEnum XError2) true "01010" "01010" "10")).
Proof. repeat split; shots. Qed.

(** ** The histogram *)

Lemma qcirc_sim_constant (rng : nat → nat → bool) (h : heap) circuit key :
  (∀ coins, shot_key circuit coins = inr key) →
  has_measure circuit = true →
  qcirc_sim (QasmSimulator rng) (length h) (h ++ [circuit])
  = inr ([(key, 1024%Z)], h ++ [circuit]).
Proof.
  intros Hkey Hm.
  rewrite (qcirc_sim_deref _ _ _ circuit) by by apply list_lookup_middle.
  pose proof (counts_constant circuit key Hkey rng 1023 Hm) as Hc.
  change (Z.of_nat 1024) with 1024%Z in Hc.
  cbn [bind result_monad] in Hc.
  destruct (run (QasmSimulator rng) circuit 1024) as [e|job]; [done|].
  destruct (job_result (QasmSimulator rng) job) as [e|res]; [done|].
  by rewrite Hc.
Qed.

(** C5.  For every scenario tag (and whatever else is passed for it) and
    either value of [measure_all], [qcirc_sim] returns a histogram that is
    not empty and every key of it has as many characters as the circuit has
    classical bits, all of them measured into: 2 when [measure_all] is
    false, 5 when it is true. *)
Theorem key_length_is_num_clbits
    (v : pyval) (measure_all : bool) (rng : nat → nat → bool) (h : heap) :
  ∃ circuit counts,
    qcirc v measure_all h = inr (length h, h ++ [circuit])
    ∧ qcirc_sim (QasmSimulator rng) (length h) (h ++ [circuit])
      = inr (counts, h ++ [circuit])
    ∧ counts ≠ []
    ∧ Forall (λ key, String.length key = num_clbits circuit) (keys counts)
    ∧ length (data circuit ≫= instruction_clbits) = num_clbits circuit
    ∧ num_clbits circuit = (if measure_all then 5 else 2).
Proof.
  destruct (qcirc_built v measure_all h) as (circuit & Hb & Hq).
  exists circuit.
  assert (∃ key, (∀ coins, shot_key circuit coins = inr key)
                 ∧ has_measure circuit = true
                 ∧ String.length key = num_clbits circuit
                 ∧ length (data circuit ≫= instruction_clbits) = num_clbits circuit
                 ∧ num_clbits circuit = (if measure_all then 5 else 2))
    as (key & Hkey & Hm & Hlen & Hmeasured & Hn).
  { destruct measure_all; destruct v as [| | | |[]];
      vm_compute in Hb; injection Hb as <-;
      eexists; (split; [intros coins; vm_compute; reflexivity|]);
      repeat split; vm_compute; reflexivity. }
  exists [(key, 1024%Z)].
  split; [exact Hq|]. split; [by apply qcirc_sim_constant|].
  split; [done|]. split; [|done].
  by constructor.
Qed.

(** C7.  [qcirc_sim] hands the circuit behind its argument to the
    simulator for 1024 shots, asks the job for its result and the result
    for its counts, and returns these counts as they are, changing no
    object; an exception raised by any of the three calls is the exception
    of [qcirc_sim], and nothing is called again. *)
Theorem qcirc_sim_pass_through (qsim : Backend) (qc : ref) (h : heap) circuit :
  h !! qc = Some circuit →
  (∀ job res counts,
     run qsim circuit 1024 = inr job →
     job_result qsim job = inr res →
     get_counts qsim res = inr counts →
     qcirc_sim qsim qc h = inr (counts, h))
  ∧ (∀ e, run qsim circuit 1024 = inl e → qcirc_sim qsim qc h = inl e)
  ∧ (∀ job e,
       run qsim circuit 1024 = inr job →
       job_result qsim job = inl e →
       qcirc_sim qsim qc h = inl e)
  ∧ (∀ job res e,
       run qsim circuit 1024 = inr job →
       job_result qsim job = inr res →
       get_counts qsim res = inl e →
       qcirc_sim qsim qc h = inl e).
Proof.
  intros Hqc. rewrite (qcirc_sim_deref qsim qc h circuit Hqc).
  repeat split.
  - by intros job res counts -> -> ->.
  - by intros e ->.
  - by intros job e -> ->.
  - by intros job res e -> -> ->.
Qed.

Lemma qcirc_sim_pass_through_witness :
  ∃ circuit,
    built (PyEnum XError1) false = Some circuit
    ∧ qcirc_sim (QasmSimulator (λ _ _, false)) 0 [circuit]
      = inr ([("11", 1024%Z)], [circuit]).
Proof.
  eexists. split; [vm_compute; reflexivity|].
  eapply (proj1 (qcirc_sim_pass_through (QasmSimulator (λ _ _, false)) 0 [_] _ eq_refl)).
  - vm_compute. reflexivity.
  - vm_compute. reflexivity.
  - vm_compute. reflexivity.
Defined.

(** ** Inputs that are no scenario tag *)

(** C6, as the claim has it, fails: the integer 0 is not a member of
    [ErrorSims], and [qcirc] raises nothing on it. *)
Lemma unsupported_tag_not_raised :
  (∀ t, PyInt 0 ≠ PyEnum t) ∧ ¬ ∃ e : exn, qcirc (PyInt 0) false [] = inl e.
Proof.
  split; [intros t; discriminate|].
  intros [e He].
  destruct (qcirc_built (PyInt 0) false []) as (circuit & _ & Hq).
  rewrite Hq in He. discriminate He.
Qed.

(** ** Independence of the runs *)

(** C8.  The circuit [qcirc] builds for a tag and a flag is the same
    object content (registers, instructions, measurements) in any two
    heaps; the call allocates this one object and leaves every older
    object as it was.  In particular, in the heap a whole scenario run
    has left behind, whatever its backend answered, [qcirc] builds the
    circuit it builds anywhere else. *)
Theorem qcirc_deterministic_stateless
    (qsim : Backend) (v' : pyval) (m' : bool)
    (v : pyval) (measure_all : bool) (h1 h2 : heap) :
  ∃ circuit,
    qcirc v measure_all h1 = inr (length h1, h1 ++ [circuit])
    ∧ qcirc v measure_all h2 = inr (length h2, h2 ++ [circuit])
    ∧ match scenario qsim v' m' h1 with
      | inl _ => True
      | inr (_, h') =>
          (∃ made, h' = h1 ++ [made])
          ∧ qcirc v measure_all h' = inr (length h', h' ++ [circuit])
      end.
Proof.
  destruct (qcirc_built v measure_all h1) as (circuit & Hb & Hq1).
  exists circuit. split; [exact Hq1|].
  assert (∀ h, qcirc v measure_all h = inr (length h, h ++ [circuit])) as Hany.
  { intros h. destruct (qcirc_built v measure_all h) as (circuit' & Hb' & Hq).
    rewrite Hb in Hb'. by injection Hb' as <-. }
  split; [apply Hany|].
  destruct (scenario_built qsim v' m' h1) as (made & _ & ->).
  match goal with |- match match ?x with _ => _ end with _ => _ end => destruct x as [e|[counts syndrome]] end;
    [done|].
  split; [by exists made|apply Hany].
Qed.

(** ** Reversing the keys *)

Lemma dict_get_NoDup {V} (d : dict V) (k : string) (v : V) :
  NoDup (keys d) → (k, v) ∈ d → dict_get d k = Some v.
Proof.
  induction d as [|[k' v'] d IH]; intros Hnd Hin.
  - by apply elem_of_nil in Hin.
  - unfold keys in *. rewrite fmap_cons in Hnd. cbn [fst] in Hnd.
    apply NoDup_cons in Hnd as [Hnotin Hnd].
    cbn [dict_get]. apply elem_of_cons in Hin as [Heq|Hin].
    + injection Heq as -> ->. by rewrite String.eqb_refl.
    + destruct (String.eqb_spec k' k) as [->|Hne]; [|by apply IH].
      exfalso. apply Hnotin. apply list_elem_of_fmap. by exists (k, v).
  Qed.

Section Reversed.

Context (counts : Counts) (first : string).
Hypothesis counts_keys : NoDup (keys counts).
Hypothesis counts_first : list_getitem (keys counts) 0 = inr first.

(** The loop of [counts_bit_reversed] over the entries [l] of [counts]:
    the one key written is the reversed first key, and each round
    overwrites its value. *)
Lemma reversed_loop (l : Counts) (acc : Counts) :
  (∀ e, e ∈ l → e ∈ counts) →
  (acc = [] ∨ ∃ n, acc = [(str_reversed first, n)]) →
  for_each (keys l)
    (λ a b,
       first ← list_getitem (keys counts) 0;
       n ← dict_getitem counts b;
       ret (dict_setitem a (str_reversed first) n))
    acc
  = inr (match last l with
         | Some (_, n) => [(str_reversed first, n)]
         | None => acc
         end).
Proof.
  match goal with |- context [for_each _ ?f _] => set (body := f) end.
  revert acc. induction l as [|[k n] l IH]; intros acc Hl Hacc; [done|].
  change (keys ((k, n) :: l)) with (k :: keys l). cbn [for_each].
  assert (body acc k = inr [(str_reversed first, n)]) as ->.
  { unfold body. rewrite counts_first. cbn [bind result_monad].
    unfold dict_getitem.
    rewrite (dict_get_NoDup counts k n counts_keys) by (apply Hl; left).
    cbn [bind result_monad ret].
    destruct Hacc as [->|[n0 ->]]; [done|]. cbn. by rewrite String.eqb_refl. }
  cbn [bind result_monad]. rewrite IH.
  - destruct l as [|e l]; [done|]. rewrite last_cons_cons.
    destruct (last (e :: l)) as [[]|] eqn:E; [done|].
    by apply last_None in E.
  - intros e He. apply Hl. by right.
  - right. by exists n.
Qed.

End Reversed.

(** C10.  On a histogram that is not empty (a [dict], so no key occurs
    twice), [counts_bit_reversed] returns a dictionary with exactly one
    key, the first key of the histogram reversed, however many keys the
    histogram has, and the value under it is the count of the last key of
    the iteration. *)
Theorem counts_bit_reversed_collapses
    (counts : Counts) (first : string) (n : Z) (rest : Counts) :
  counts = (first, n) :: rest →
  NoDup (keys counts) →
  ∃ k_last n_last,
    last counts = Some (k_last, n_last)
    ∧ counts_bit_reversed counts = inr [(str_reversed first, n_last)].
Proof.
  intros -> Hnd.
  destruct (last ((first, n) :: rest)) as [[k_last n_last]|] eqn:E;
    [|by apply last_None in E].
  exists k_last, n_last. split; [done|].
  unfold counts_bit_reversed.
  rewrite (reversed_loop _ first Hnd eq_refl ((first, n) :: rest) []); [|done|by left].
  by rewrite E.
Qed.

Lemma counts_bit_reversed_collapses_witness :
  counts_bit_reversed [("001", 600%Z); ("010", 300%Z); ("110", 124%Z)]
  = inr [("100", 124%Z)].
Proof.
  destruct (counts_bit_reversed_collapses
              [("001", 600%Z); ("010", 300%Z); ("110", 124%Z)]
              "001" 600%Z [("010", 300%Z); ("110", 124%Z)] eq_refl)
    as (k_last & n_last & Hlast & ->).
  - apply (bool_decide_unpack _). vm_compute. exact I.
  - injection Hlast as _ <-. reflexivity.
Defined.

(** ** What is measured *)

Lemma amp_norm2_neg (a : amp) : amp_norm2 (amp_neg a) = amp_norm2 a.
Proof. unfold amp_norm2, amp_neg. cbn. lia. Qed.

Lemma amp_norm2_mul_i (a : amp) : amp_norm2 (amp_mul_i a) = amp_norm2 a.
Proof. unfold amp_norm2, amp_mul_i. cbn. lia. Qed.

Lemma amp_norm2_pos (a : amp) : a ≠ (0, 0)%Z → (0 < amp_norm2 a)%Z.
Proof.
  destruct a as [re im]. unfold amp_norm2. cbn. intros Ha.
  assert (re ≠ 0 ∨ im ≠ 0)%Z as [H|H] by (destruct (decide (re = 0%Z)); [right; congruence|by left]); nia.
Qed.

Lemma amp_norm2_nonneg (a : amp) : (0 ≤ amp_norm2 a)%Z.
Proof.
  unfold amp_norm2.
  pose proof (Z.square_nonneg a.1). pose proof (Z.square_nonneg a.2). lia.
Qed.

(** When every term of [psi] has the value [v] on qubit [k], measuring
    this qubit reads [v] and changes nothing. *)
Lemma weight_agree (k : nat) (v : bool) (psi : statevector) :
  Forall (λ t, bit k t.1 = v) psi → weight k v psi = norm2 psi.
Proof.
  induction 1 as [|t psi' Ht _ IH]; [done|].
  change (weight k v (t :: psi'))
    with (if Bool.eqb (bit k t.1) v
          then (amp_norm2 t.2 + weight k v psi')%Z else weight k v psi').
  change (norm2 (t :: psi')) with (amp_norm2 t.2 + norm2 psi')%Z.
  by rewrite Ht, eqb_reflx, IH.
Qed.

Lemma weight_disagree (k : nat) (v : bool) (psi : statevector) :
  Forall (λ t, bit k t.1 = v) psi → weight k (negb v) psi = 0%Z.
Proof.
  induction 1 as [|t psi' Ht _ IH]; [done|].
  change (weight k (negb v) (t :: psi'))
    with (if Bool.eqb (bit k t.1) (negb v)
          then (amp_norm2 t.2 + weight k (negb v) psi')%Z
          else weight k (negb v) psi').
  rewrite Ht, IH. by destruct v.
Qed.

Lemma project_agree (k : nat) (v : bool) (psi : statevector) :
  Forall (λ t, bit k t.1 = v) psi → project k v psi = psi.
Proof.
  induction 1 as [|t psi' Ht _ IH]; [done|].
  change (project k v (t :: psi'))
    with (if Bool.eqb (bit k t.1) v then t :: project k v psi' else project k v psi').
  by rewrite Ht, eqb_reflx, IH.
Qed.

Lemma measure_agree (k : nat) (v : bool) (psi : statevector) (coin : bool) :
  Forall (λ t, bit k t.1 = v) psi → norm2 psi ≠ 0%Z →
  measure_qubit coin k psi = (v, psi).
Proof.
  intros Hagree Hn. unfold measure_qubit.
  pose proof (weight_agree k v psi Hagree) as Hw.
  pose proof (weight_disagree k v psi Hagree) as Hd.
  pose proof (project_agree k v psi Hagree) as Hp.
  destruct v; cbn [negb] in Hd.
  - rewrite Hw, Hd. destruct (Z.eqb_spec (norm2 psi) 0); [done|].
    change (0 =? 0)%Z with true. cbv iota. by rewrite Hp.
  - rewrite Hd. change (0 =? 0)%Z with true. cbv iota. by rewrite Hp.
Qed.

Ltac measure_step :=
  erewrite measure_agree;
  [ | repeat constructor
    | cbv [norm2 foldr snd]; rewrite ?amp_norm2_neg, ?amp_norm2_mul_i; lia ];
  cbv -[amp_neg amp_mul_i measure_qubit].

Lemma built_undisturbed (t : ErrorSims) :
  ∃ circuit, built (PyEnum t) false = Some circuit ∧ undisturbed circuit.
Proof.
  destruct t; eexists; (split; [vm_compute; reflexivity|]);
    intros a b coins Hab;
    (assert (amp_norm2 a + amp_norm2 b ≠ 0)%Z as Hn
      by (pose proof (amp_norm2_nonneg a); pose proof (amp_norm2_nonneg b);
          destruct Hab as [Hz|Hz]; apply amp_norm2_pos in Hz; lia));
    clear Hab; unfold run_from;
    cbv -[amp_neg amp_mul_i measure_qubit];
    do 2 measure_step;
    (do 2 eexists; split; [reflexivity|split; reflexivity]).
Qed.

(** C9, as the code has it.  For every scenario tag, the circuit built
    with [measure_all] false measures the two ancillas and no other qubit,
    none of [q], [d[0]], [d[1]], and its measurements leave the state of
    the qubits as it is, whatever state the data qubit was encoded from;
    the circuit built with [measure_all] true measures all five qubits. *)
Theorem ancillas_only_unless_measure_all
    (t : ErrorSims) (measure_all : bool) (h : heap) :
  ∃ circuit,
    qcirc (PyEnum t) measure_all h = inr (length h, h ++ [circuit])
    ∧ if measure_all
      then measured_qubits circuit = all_qubits
      else measured_qubits circuit = ancilla_qubits
           ∧ only_ancillas_measured circuit
           ∧ (∀ q, In q data_qubits → ¬ In q (measured_qubits circuit))
           ∧ undisturbed circuit.
Proof.
  destruct (qcirc_built (PyEnum t) measure_all h) as (circuit & Hb & Hq).
  exists circuit. split; [exact Hq|].
  destruct measure_all.
  - destruct t; vm_compute in Hb; injection Hb as <-; reflexivity.
  - destruct (built_undisturbed t) as (circuit' & Hb' & Hund).
    rewrite Hb in Hb'. injection Hb' as <-.
    assert (measured_qubits circuit = ancilla_qubits) as Hm
      by (destruct t; vm_compute in Hb; injection Hb as <-; reflexivity).
    split; [exact Hm|]. unfold only_ancillas_measured. rewrite Hm.
    split; [by intros q0 ?|]. split; [|exact Hund].
    intros q0 Hdata Hanc. cbn in Hdata, Hanc.
    destruct Hdata as [<-|[<-|[<-|[]]]]; destruct Hanc as [E|[E|[]]]; discriminate E.
Qed.

Lemma ancillas_only_unless_measure_all_witness :
  ∃ circuit s s',
    qcirc (PyEnum XError1) false [] = inr (0, [circuit])
    ∧ measured_qubits circuit = ancilla_qubits
    ∧ run_from circuit (λ _, false) (initial_with circuit (1, 0)%Z (0, 1)%Z) = inr s
    ∧ run_from (without_measure circuit) (λ _, false)
        (initial_with circuit (1, 0)%Z (0, 1)%Z) = inr s'
    ∧ psi s = psi s'.
Proof.
  destruct (ancillas_only_unless_measure_all XError1 false [])
    as (circuit & Hq & Hm & _ & _ & Hund).
  destruct (Hund (1, 0)%Z (0, 1)%Z (λ _, false)) as (s & s' & Hs & Hs' & Hpsi).
  - left. discriminate.
  - exists circuit, s, s'. repeat split; assumption.
Defined.

(** C9, as the claim has it, fails: the circuit the notebook builds for
    [ZError1], with [measure_all] true, measures every qubit, the data
    qubit [q] among them. *)
Lemma measure_all_measures_data_qubits :
  ∃ circuit,
    qcirc (PyEnum ZError1) true [] = inr (0, [circuit])
    ∧ measured_qubits circuit = all_qubits
    ∧ ¬ only_ancillas_measured circuit.
Proof.
  destruct (qcirc_built (PyEnum ZError1) true []) as (circuit & Hb & Hq).
  exists circuit. split; [exact Hq|].
  vm_compute in Hb. injection Hb as <-. clear Hq.
  split; [reflexivity|].
  intros Honly. destruct (Honly q_0) as [E|[E|[]]]; [by left|discriminate E..].
Qed.

(** ** More on reversing the keys *)

Lemma dict_get_keys {V} (d : dict V) (k : string) :
  k ∈ keys d → ∃ v, dict_get d k = Some v ∧ (∃ k', (k', v) ∈ d).
Proof.
  induction d as [|[k' v'] d IH]; intros Hin.
  - by apply elem_of_nil in Hin.
  - change (keys ((k', v') :: d)) with (k' :: keys d) in Hin.
    cbn [dict_get]. destruct (String.eqb_spec k' k) as [->|Hne].
    + exists v'. split; [done|]. exists k. by left.
    + apply elem_of_cons in Hin as [->|Hin]; [done|].
      destruct (IH Hin) as (v & Hv & k'' & Hk). exists v. split; [done|].
      exists k''. by right.
Qed.

(** The loop of [counts_bit_reversed] raises nothing, whatever values the
    lookups give: after at least one round the accumulator is the one
    entry under the reversed first key. *)
Lemma reversed_loop_total (counts : Counts) (first : string) (l : list string)
    (acc : Counts) :
  list_getitem (keys counts) 0 = inr first →
  (∀ k, k ∈ l → k ∈ keys counts) →
  (acc = [] ∨ ∃ n, acc = [(str_reversed first, n)]) →
  ∃ out,
    for_each l
      (λ a b,
         first ← list_getitem (keys counts) 0;
         n ← dict_getitem counts b;
         ret (dict_setitem a (str_reversed first) n))
      acc
    = inr out
    ∧ (l = [] → out = acc)
    ∧ (l ≠ [] → ∃ k n, (k, n) ∈ counts ∧ out = [(str_reversed first, n)]).
Proof.
  intros Hfirst.
  match goal with |- context [for_each _ ?f _] => set (body := f) end.
  revert acc. induction l as [|k l IH]; intros acc Hl Hacc.
  - exists acc. by repeat split.
  - destruct (dict_get_keys counts k) as (n & Hn & k' & Hk'); [apply Hl; by left|].
    assert (body acc k = inr [(str_reversed first, n)]) as Hbody.
    { unfold body. rewrite Hfirst. cbn [bind result_monad].
      unfold dict_getitem. rewrite Hn. cbn [bind result_monad ret].
      destruct Hacc as [->|[n0 ->]]; [done|]. cbn. by rewrite String.eqb_refl. }
    destruct (IH [(str_reversed first, n)]) as (out & Hout & Hnil & Hcons).
    { intros k0 Hk0. apply Hl. by right. }
    { right. by exists n. }
    exists out. cbn [for_each]. rewrite Hbody. cbn [bind result_monad].
    split; [exact Hout|]. split; [done|]. intros _.
    destruct l as [|k0 l]; [|by apply Hcons].
    rewrite (Hnil eq_refl). by exists k', n.
Qed.


(** X2.  The notebook's expression for the syndrome,
    [list(counts_bit_reversed(counts).keys())[0]], raises [IndexError] on
    an empty histogram and is otherwise the first key reversed, whatever
    the other keys and the counts are. *)
Theorem syndrome_of_first_key (counts : Counts) :
  syndrome_of counts =
    match counts with
    | [] => inl IndexError
    | (first, _) :: _ => inr (str_reversed first)
    end.
Proof.
  destruct counts as [|[first n] rest]; [done|].
  unfold syndrome_of, counts_bit_reversed.
  destruct (reversed_loop_total ((first, n) :: rest) first
              (keys ((first, n) :: rest)) [] eq_refl)
    as (out & Hout & _ & Hcons); [done|by left|].
  destruct Hcons as (k & n' & _ & ->); [done|].
  cbv zeta. rewrite Hout. reflexivity.
Qed.

Lemma str_reversed_involutive (s : string) : str_reversed (str_reversed s) = s.
Proof.
  unfold str_reversed.
  by rewrite list_ascii_of_string_of_list_ascii, rev_involutive,
    string_of_list_ascii_of_string.
Qed.

Lemma counts_bit_reversed_single (key : string) (n : Z) :
  counts_bit_reversed [(key, n)] = inr [(str_reversed key, n)].
Proof.
  unfold counts_bit_reversed. cbn -[String.eqb str_reversed dict_getitem].
  unfold dict_getitem. cbn [dict_get]. by rewrite String.eqb_refl.
Qed.

(** X3.  On a histogram with a single key, [counts_bit_reversed] reverses
    the key and keeps the count, and a second application gives the
    histogram back. *)
Theorem counts_bit_reversed_round_trip (key : string) (n : Z) :
  counts_bit_reversed [(key, n)] = inr [(str_reversed key, n)]
  ∧ (reversed ← counts_bit_reversed [(key, n)]; counts_bit_reversed reversed)
    = inr [(key, n)].
Proof.
  split; [apply counts_bit_reversed_single|].
  rewrite counts_bit_reversed_single. cbn [bind result_monad].
  by rewrite counts_bit_reversed_single, str_reversed_involutive.
Qed.

(** ** The runs of the notebook *)

(** What the tag's gates and the parity checks of [qcirc] give, for every
    tag and both values of [measure_all]. *)
Lemma tag_yields (t : ErrorSims) (m : bool) :
  shots_yield (PyEnum t) m
    (str_reversed (reading t m)) (reading t m) (parity_syndrome t).
Proof. destruct t, m; shots. Qed.

Lemma shots_yield_unique (v : pyval) (m : bool) (k s a k' s' a' : string) :
  shots_yield v m k s a → shots_yield v m k' s' a' → k = k' ∧ s = s' ∧ a = a'.
Proof.
  intros H H'.
  destruct (H (λ _ _, false) []) as (circuit & Hs & _ & Ha).
  destruct (H' (λ _ _, false) []) as (circuit' & Hs' & _ & Ha').
  clear H H'. rewrite Hs in Hs'. clear Hs.
  injection Hs' as -> -> ->. rewrite Ha in Ha'. by injection Ha' as ->.
Qed.

(** X4.  For each tag, and as well for [None], a [bool], an [int] or a
    [str] passed in its place, with [measure_all] true or false, with any
    random source and in any heap, a run of the notebook raises nothing,
    every one of its 1024 shots gives the same key, so the histogram has
    this one key, and the syndrome is this key reversed: on the histograms
    of the notebook [counts_bit_reversed] loses nothing. *)
Theorem every_run_single_key
    (v : pyval) (measure_all : bool) (rng : nat → nat → bool) (h : heap) :
  ∃ circuit key,
    scenario (QasmSimulator rng) v measure_all h
      = inr ((length h, [(key, 1024%Z)], str_reversed key), h ++ [circuit])
    ∧ (∀ coins, shot_key circuit coins = inr key)
    ∧ counts_bit_reversed [(key, 1024%Z)] = inr [(str_reversed key, 1024%Z)].
Proof.
  assert (∃ key ancillas,
            shots_yield v measure_all key (str_reversed key) ancillas)
    as (key & ancillas & Hy)
    by (destruct measure_all; destruct v as [| | | |[]]; do 2 eexists; shots).
  destruct (Hy rng h) as (circuit & Hs & Hk & _).
  exists circuit, key. split; [exact Hs|]. split; [exact Hk|].
  apply counts_bit_reversed_single.
Qed.

(** X5.  With [measure_all] false, for each of the eleven tags, every
    shot gives the two parities of the flipped qubits: the syndrome the
    notebook prints is [q xor d[0]] followed by [q xor d[1]], where a qubit
    counts as flipped when the tag puts [x] or [y] on it, and the key of
    the histogram is this syndrome reversed. *)
Theorem syndrome_is_parity (t : ErrorSims) :
  shots_yield (PyEnum t) false
    (str_reversed (parity_syndrome t)) (parity_syndrome t) (parity_syndrome t).
Proof. exact (tag_yields t false). Qed.

(** X6.  With [measure_all] true, for each of the eleven tags, what the
    notebook prints as the state of the ancillas is a string of five
    characters: the three data qubits [q], [d[0]], [d[1]], each 1 when the
    tag flips it, and then the two ancilla bits, the same parities as
    without [measure_all]. *)
Theorem measure_all_reading (t : ErrorSims) :
  shots_yield (PyEnum t) true
    (str_reversed (bits_string (flips t ++ parities (flips t))))
    (bits_string (flips t ++ parities (flips t)))
    (parity_syndrome t)
  ∧ String.length (bits_string (flips t ++ parities (flips t))) = 5.
Proof. split; [exact (tag_yields t true)|by destruct t]. Qed.

(** X7.  The ancilla bits tell which qubit was flipped as long as a tag
    flips at most one: two such tags that give the same ancilla bits flip
    the same qubits. *)
Theorem syndrome_identifies_single_flip
    (t1 t2 : ErrorSims) (m : bool) (k1 s1 k2 s2 ancillas : string) :
  (flip_weight t1 ≤ 1)%nat → (flip_weight t2 ≤ 1)%nat →
  shots_yield (PyEnum t1) m k1 s1 ancillas →
  shots_yield (PyEnum t2) m k2 s2 ancillas →
  flips t1 = flips t2.
Proof.
  intros Hw1 Hw2 H1 H2.
  destruct (shots_yield_unique _ _ _ _ _ _ _ _ H1 (tag_yields t1 m)) as (_ & _ & E1).
  destruct (shots_yield_unique _ _ _ _ _ _ _ _ H2 (tag_yields t2 m)) as (_ & _ & E2).
  clear H1 H2. rewrite E1 in E2. clear E1.
  destruct t1, t2; vm_compute in Hw1, Hw2, E2 |- *;
    first [reflexivity | discriminate E2 | lia].
Qed.

Lemma syndrome_identifies_single_flip_witness : flips XError1 = flips YError1.
Proof.
  apply (syndrome_identifies_single_flip XError1 YError1 false
           "11" "11" "11" "11" "11").
  - vm_compute. lia.
  - vm_compute. lia.
  - exact (tag_yields XError1 false).
  - exact (tag_yields YError1 false).
Defined.

(** X8.  [None], a [bool], an [int] or a [str] passed as the tag, the
    number of a member or its name for instance, is run as if no error had
    been injected: every shot gives the key of [NoError], and the syndrome
    is 00 (00000 with [measure_all]). *)
Theorem unsupported_tag_runs_as_no_error (v : pyval) :
  (∀ t, v ≠ PyEnum t) →
  (shots_yield v false "00" "00" "00"
   ∧ shots_yield (PyEnum NoError) false "00" "00" "00")
  ∧ (shots_yield v true "00000" "00000" "00"
     ∧ shots_yield (PyEnum NoError) true "00000" "00000" "00").
Proof.
  intros Hv.
  destruct v as [| | | |t]; [..|by destruct (Hv t)]; repeat split; shots.
Qed.

Lemma unsupported_tag_runs_as_no_error_witness :
  shots_yield (PyStr "XError1") false "00" "00" "00".
Proof.
  refine (proj1 (proj1 (unsupported_tag_runs_as_no_error (PyStr "XError1") _))).
  intros t. discriminate.
Defined.

(** ** The encoded qubit *)

(** A shot of the circuit of a tag, without [measure_all], started with
    the data qubit in [a|0> + b|1>]. *)
Lemma encoded_run (t : ErrorSims) :
  ∃ circuit,
    built (PyEnum t) false = Some circuit
    ∧ ∀ (a b : amp) (coins : nat → bool),
        a ≠ (0, 0)%Z ∨ b ≠ (0, 0)%Z →
        ∃ s,
          run_from circuit coins (initial_with circuit a b) = inr s
          ∧ psi s = [(code0 t, (phases t a b).1); (code1 t, (phases t a b).2)]
          ∧ format_memory circuit (memory s) = str_reversed (parity_syndrome t).
Proof.
  destruct t; eexists; (split; [vm_compute; reflexivity|]);
    intros a b coins Hab;
    (assert (amp_norm2 a + amp_norm2 b ≠ 0)%Z as Hn
      by (pose proof (amp_norm2_nonneg a); pose proof (amp_norm2_nonneg b);
          destruct Hab as [Hz|Hz]; apply amp_norm2_pos in Hz; lia));
    clear Hab; unfold run_from;
    cbv -[amp_neg amp_mul_i measure_qubit];
    do 2 measure_step;
    (eexists; split; [reflexivity|split; reflexivity]).
Qed.

(** X9.  The syndrome does not depend on the state that was encoded: for
    each tag, with the data qubit started in any [a|0> + b|1>] that is not
    zero, every shot of the circuit built without [measure_all] writes the
    key it writes when started from [|0>], the parities of the flipped
    qubits. *)
Theorem syndrome_independent_of_encoded_state (t : ErrorSims) (h : heap) :
  ∃ circuit,
    qcirc (PyEnum t) false h = inr (length h, h ++ [circuit])
    ∧ ∀ (a b : amp) (coins coins' : nat → bool),
        a ≠ (0, 0)%Z ∨ b ≠ (0, 0)%Z →
        ∃ s,
          run_from circuit coins (initial_with circuit a b) = inr s
          ∧ shot_key circuit coins' = inr (format_memory circuit (memory s))
          ∧ format_memory circuit (memory s) = str_reversed (parity_syndrome t).
Proof.
  destruct (qcirc_built (PyEnum t) false h) as (circuit & Hb & Hq).
  exists circuit. split; [exact Hq|].
  destruct (encoded_run t) as (circuit' & Hb' & Hrun).
  rewrite Hb in Hb'. injection Hb' as <-.
  destruct (tag_yields t false (λ _ _, false) []) as (circuit' & Hs & Hkey & _).
  assert (circuit' = circuit) as ->.
  { destruct (scenario_built (QasmSimulator (λ _ _, false)) (PyEnum t) false [])
      as (circuit'' & Hb'' & Hs'').
    rewrite Hb in Hb''. injection Hb'' as <-. rewrite Hs in Hs''. clear Hs.
    match type of Hs'' with
    | _ = match ?x with _ => _ end => destruct x as [e|[counts syndrome]]
    end; [discriminate Hs''|].
    by injection Hs'' as _ _ ->. }
  intros a b coins coins' Hab.
  destruct (Hrun a b coins Hab) as (s & Hs' & _ & Hmem).
  exists s. split; [exact Hs'|]. split; [|exact Hmem].
  rewrite Hmem. apply Hkey.
Qed.

Lemma syndrome_independent_of_encoded_state_witness :
  ∃ circuit s,
    qcirc (PyEnum XError2) false [] = inr (0, [circuit])
    ∧ run_from circuit (λ _, true) (initial_with circuit (3, 0)%Z (0, 4)%Z) = inr s
    ∧ format_memory circuit (memory s) = "01".
Proof.
  destruct (syndrome_independent_of_encoded_state XError2 [])
    as (circuit & Hq & Hrun).
  destruct (Hrun (3, 0)%Z (0, 4)%Z (λ _, true) (λ _, true)) as (s & Hs & _ & Hmem).
  - left. discriminate.
  - exists circuit, s. repeat split; assumption.
Defined.

(** X10.  For each of the eleven tags, with the data qubit started in
    any [a|0> + b|1>] that is not zero, a shot of the circuit built
    without [measure_all] ends in two terms: the flipped qubits followed by
    the ancilla bits, and the complement of the flipped qubits followed by
    the same ancilla bits.  Their amplitudes are [a] and [b] for the seven
    tags that only flip bits, as the notebook's summary table prints them;
    for the [z] tags they are [a] and [-b] and for the [y] tags [i a] and
    [-i b], where the table prints the two terms without these phases. *)
Theorem encoded_final_state (t : ErrorSims) (h : heap) :
  ∃ circuit,
    qcirc (PyEnum t) false h = inr (length h, h ++ [circuit])
    ∧ ∀ (a b : amp) (coins : nat → bool),
        a ≠ (0, 0)%Z ∨ b ≠ (0, 0)%Z →
        ∃ s,
          run_from circuit coins (initial_with circuit a b) = inr s
          ∧ psi s = [(code0 t, (phases t a b).1); (code1 t, (phases t a b).2)].
Proof.
  destruct (qcirc_built (PyEnum t) false h) as (circuit & Hb & Hq).
  exists circuit. split; [exact Hq|].
  destruct (encoded_run t) as (circuit' & Hb' & Hrun).
  rewrite Hb in Hb'. injection Hb' as <-.
  intros a b coins Hab.
  destruct (Hrun a b coins Hab) as (s & Hs & Hpsi & _).
  by exists s.
Qed.

Lemma encoded_final_state_witness :
  ∃ circuit s,
    qcirc (PyEnum ZError1) false [] = inr (0, [circuit])
    ∧ run_from circuit (λ _, true) (initial_with circuit (3, 0)%Z (0, 4)%Z) = inr s
    ∧ psi s = [([false; false; false; false; false], (3, 0)%Z);
               ([true; true; true; false; false], (0, -4)%Z)].
Proof.
  destruct (encoded_final_state ZError1 []) as (circuit & Hq & Hrun).
  destruct (Hrun (3, 0)%Z (0, 4)%Z (λ _, true)) as (s & Hs & Hpsi).
  - left. discriminate.
  - exists circuit, s. repeat split; assumption.
Defined.

(** ** The match statement and its subject *)

Lemma qcirc_of_pyval (v : pyval) (m : bool) :
  qcirc v m = qcirc_object (of_pyval v) m.
Proof. reflexivity. Qed.

Lemma non_member_no_case (v : pyval) :
  (∀ t, v ≠ PyEnum t) → first_case (of_pyval v) cases = inr None.
Proof.
  intros Hv. destruct v as [| | | |t]; [reflexivity..|by destruct (Hv t)].
Qed.

Ltac allocate_object :=
  unfold qcirc_object; cbn [negb];
  match goal with
  | |- context [new ?x] => let v := eval vm_compute in x in change x with v
  end;
  rewrite bind_new; cbv beta iota zeta.

(** A leaf of the case analysis on the answers of the subject: the
    answers known are put in, and both sides are computed. *)
Ltac answers i :=
  repeat match goal with
         | E : i _ = _ |- _ => rewrite E; clear E
         end.

Ltac run_object i :=
  allocate_object;
  erewrite (confined_last (length _)); [|confine|reflexivity];
  answers i; vm_compute; reflexivity.

Ltac leaf i :=
  lazymatch goal with
  | |- _ = qcirc (PyEnum ?t) ?m ?h =>
      let c := fresh "c" in
      let Hb := fresh "Hb" in
      destruct (qcirc_built (PyEnum t) m h) as (c & Hb & ->);
      vm_compute in Hb; injection Hb as <-; run_object i
  | |- ∃ _, _ => eexists; split; [run_object i|reflexivity]
  | |- _ => run_object i
  end.

Ltac tests i ts :=
  lazymatch ts with
  | [] => leaf i
  | ?t :: ?ts' =>
      let E := fresh "E" in
      destruct (i t) as [?|[|]] eqn:E; cbn [bind result_monad ret first_case];
      [leaf i | leaf i | tests i ts']
  end.

(** What [qcirc] does with any subject, by the first test that does not
    answer false. *)
Lemma qcirc_object_cases (i : subject) (m : bool) (h : heap) :
  match first_case i cases with
  | inl e => qcirc_object i m h = inl e
  | inr (Some t) => qcirc_object i m h = qcirc (PyEnum t) m h
  | inr None =>
      ∃ circuit,
        qcirc_object i m h = inr (length h, h ++ [circuit])
        ∧ data circuit = no_case_data m
  end.
Proof.
  unfold cases. cbn [first_case bind result_monad ret].
  destruct m;
    tests i [NoError; XError1; XError2; XError3; XError12; XError13; XError23;
             ZError1; ZError2; YError1; YError2].
Qed.

(** C6, as the code has it.  An input that is no member of [ErrorSims] is
    not rejected by [qcirc]: [match i] tests [i == member] for the members
    in the order of its cases and has no default case.  When a test
    raises, the exception is the exception of [qcirc], which handles
    nothing; when a test answers true, [qcirc] does what it does for that
    member; when every test answers false, nothing is raised and [qcirc]
    returns the circuit with the encoding, the parity checks and the
    measurement and no gate between the first two barriers.  The last is
    the case of [None], of a [bool], of an [int] and of a [str]. *)
Theorem unsupported_input_not_rejected (measure_all : bool) (h : heap) :
  (∀ i : subject,
     match first_case i cases with
     | inl e => qcirc_object i measure_all h = inl e
     | inr (Some t) =>
         qcirc_object i measure_all h = qcirc (PyEnum t) measure_all h
     | inr None =>
         ∃ circuit,
           qcirc_object i measure_all h = inr (length h, h ++ [circuit])
           ∧ data circuit = no_case_data measure_all
     end)
  ∧ (∀ v : pyval,
       qcirc v measure_all h = qcirc_object (of_pyval v) measure_all h
       ∧ ((∀ t, v ≠ PyEnum t) →
          ∃ circuit,
            qcirc v measure_all h = inr (length h, h ++ [circuit])
            ∧ data circuit = no_case_data measure_all)).
Proof.
  split; [intros i; apply qcirc_object_cases|].
  intros v. split; [by rewrite qcirc_of_pyval|].
  intros Hv. rewrite qcirc_of_pyval.
  pose proof (qcirc_object_cases (of_pyval v) measure_all h) as Hcases.
  by rewrite (non_member_no_case v Hv) in Hcases.
Qed.

(** A subject whose tests raise, as an array with more than one element
    does; one that answers true to every test; and the integer 0. *)
Lemma unsupported_input_not_rejected_witness :
  qcirc_object (λ _, inl (ValueError "The truth value of an array is ambiguous"))
    false []
  = inl (ValueError "The truth value of an array is ambiguous")
  ∧ qcirc_object (λ _, inr true) false [] = qcirc (PyEnum NoError) false []
  ∧ ∃ circuit,
      qcirc (PyInt 0) false [] = inr (0, [circuit])
      ∧ data circuit = no_case_data false.
Proof.
  destruct (unsupported_input_not_rejected false []) as [Hany Hplain].
  split; [exact (Hany (λ _, inl (ValueError "The truth value of an array is ambiguous")))|].
  split; [exact (Hany (λ _, inr true))|].
  apply (Hplain (PyInt 0)). intros t. discriminate.
Defined.
